(** * ghl-sales-bot: the OAuth token lifecycle of [sales_bot/ghl_api.py]

    A shallow embedding of the classes [GHLAPI] and [GHLClient] of
    [src/sales_bot/ghl_api.py].  Python values are an inductive type,
    exceptions are an inductive type, and every method is a function in a
    state-and-exception monad over the object's fields and the outside world
    (the [tokens] table, the HTTP endpoints, the logger). *)

From Stdlib Require Import String Ascii List ZArith Lia Bool DecimalString.
Import ListNotations.
Local Open Scope list_scope.
Local Open Scope string_scope.

(** ** Python values *)

(** What [json.loads] can produce, which is also what the object's fields
    hold at run time (Python checks no annotation).  Numbers are integers
    here; a [dict] is the list of its items in insertion order, keys
    distinct. *)
#[warnings="-register-all"]
Inductive pyval : Type :=
| PyNone
| PyBool (b : bool)
| PyInt (n : Z)
| PyStr (s : string)
| PyList (l : list pyval)
| PyDict (d : list (string * pyval)).

(** The exceptions the module can meet, all of them subclasses of
    [Exception]. *)
Inductive Exn : Type :=
| ValueError (msg : string)
| OperationalError (msg : string)       (* psycopg2.OperationalError *)
| DatabaseError (msg : string)          (* any other psycopg2.Error *)
| HTTPStatusError (status : Z)          (* httpx, from raise_for_status *)
| TransportError (msg : string)         (* httpx.TransportError *)
| HTTPError (status : Z)                (* requests, from raise_for_status *)
| ConnectionError (msg : string)        (* requests: ConnectionError, Timeout *)
| RequestsJSONDecodeError (msg : string)(* requests.exceptions.JSONDecodeError *)
| JSONDecodeError (msg : string)        (* json.JSONDecodeError, from httpx *)
| KeyError (key : string)
| TypeError (msg : string)
| AttributeError (msg : string).

(** The name of the exception's class, [type(e).__name__]. *)
Definition exn_class (e : Exn) : string :=
  match e with
  | ValueError _ => "ValueError"
  | OperationalError _ => "OperationalError"
  | DatabaseError _ => "DatabaseError"
  | HTTPStatusError _ => "HTTPStatusError"
  | TransportError _ => "TransportError"
  | HTTPError _ => "HTTPError"
  | ConnectionError _ => "ConnectionError"
  | RequestsJSONDecodeError _ => "JSONDecodeError"
  | JSONDecodeError _ => "JSONDecodeError"
  | KeyError _ => "KeyError"
  | TypeError _ => "TypeError"
  | AttributeError _ => "AttributeError"
  end.

(** [isinstance(e, requests.exceptions.RequestException)]. *)
Definition is_RequestException (e : Exn) : bool :=
  match e with
  | HTTPError _ | ConnectionError _ | RequestsJSONDecodeError _ => true
  | _ => false
  end.

Definition string_of_Z (z : Z) : string := NilZero.string_of_int (Z.to_int z).

(** [str(e)].  The wording of a library's message is the library's; only the
    messages the module builds itself are literal. *)
Definition exn_str (e : Exn) : string :=
  match e with
  | ValueError m | OperationalError m | DatabaseError m | TransportError m
  | ConnectionError m | RequestsJSONDecodeError m | JSONDecodeError m
  | TypeError m | AttributeError m => m
  | HTTPStatusError st => "HTTP status " ++ string_of_Z st
  | HTTPError st => string_of_Z st ++ " Error"
  | KeyError k => "'" ++ k ++ "'"
  end.

(** ** The monad of methods: state and exceptions *)

Inductive Outcome (A : Type) : Type :=
| Ok (a : A)
| Raise (e : Exn).
Arguments Ok {A} a.
Arguments Raise {A} e.

Definition M (St A : Type) : Type := St -> Outcome A * St.

Definition ret {St A} (a : A) : M St A := fun s => (Ok a, s).

Definition bind {St A B} (m : M St A) (k : A -> M St B) : M St B :=
  fun s => match m s with
           | (Ok a, s') => k a s'
           | (Raise e, s') => (Raise e, s')
           end.

Definition raise {St A} (e : Exn) : M St A := fun s => (Raise e, s).

(** [try: body  except Exception as e: handler e]. *)
Definition try_except {St A} (body : M St A) (handler : Exn -> M St A) : M St A :=
  fun s => match body s with
           | (Ok a, s') => (Ok a, s')
           | (Raise e, s') => handler e s'
           end.

Definition gets {St A} (f : St -> A) : M St A := fun s => (Ok (f s), s).
Definition modify {St} (f : St -> St) : M St unit := fun s => (Ok tt, f s).

Declare Scope py_scope.
Delimit Scope py_scope with py.
Notation "x <- c1 ;; c2" := (bind c1 (fun x => c2))
  (at level 61, c1 at next level, right associativity) : py_scope.
Notation "c1 ;; c2" := (bind c1 (fun _ => c2))
  (at level 61, right associativity) : py_scope.
Local Open Scope py_scope.

Definition is_raise {A} (o : Outcome A) : bool :=
  match o with Raise _ => true | Ok _ => false end.

(** "The call fails with an exception of class [cls]". *)
Definition raises_class {A} (cls : string) (o : Outcome A) : Prop :=
  exists e, o = Raise e /\ exn_class e = cls.

(** ** The outside world *)

(** A row of the table [tokens]; [updated_at] is a timestamp. *)
Record Row : Type := mkRow {
  row_id : Z;
  row_access_token : pyval;
  row_refresh_token : pyval;
  row_updated_at : Z
}.

(** The two statements the module sends. *)
Inductive Sql : Type :=
| SelectLatestTokens
    (* SELECT access_token, refresh_token FROM tokens
       ORDER BY updated_at DESC LIMIT 1; *)
| UpdateTokens (new_access_token new_refresh_token : pyval).
    (* UPDATE tokens SET access_token=%s, refresh_token=%s,
       updated_at=NOW() WHERE id=1; *)

(** What happens to one connect / execute / commit / close sequence: it runs
    through at server time [now], or one of its calls raises, before or
    after the commit took effect. *)
Inductive DbStage : Type := BeforeCommit | AfterCommit.
Inductive DbReply : Type :=
| DbOk (now : Z)
| DbFault (stage : DbStage) (now : Z) (e : Exn).

(** A request made through [httpx.AsyncClient.request]. *)
Record Request : Type := mkRequest {
  req_method : string;
  req_url : string;
  req_headers : list (string * string);
  req_json : option pyval
}.

(** A call of [requests.post]. *)
Record Post : Type := mkPost {
  post_url : string;
  post_data : list (string * pyval);
  post_headers : list (string * string)
}.

(** An HTTP response: its status and its body decoded as JSON ([None] when
    the body is not JSON). *)
Record Response : Type := mkResponse {
  status_code : Z;
  json_body : option pyval
}.

Inductive HttpReply : Type :=
| Responded (r : Response)
| TransportFailed (msg : string).

Inductive Level : Type := INFO | ERROR.

(** The process configuration, [sales_bot.config.Settings]. *)
Record Settings : Type := mkSettings {
  GHL_CLIENT_ID : string;
  GHL_CLIENT_SECRET : string;
  GHL_REDIRECT_URI : string;
  SUPABASE_DB_URL : string
}.

(** The environment: how the business API, the token endpoints and the
    database answer, each as a function of what it was sent before and of
    what it is sent now; and [str] of a Python value that is not a string. *)
Record Env : Type := mkEnv {
  settings : Settings;
  httpx_env : list Request -> Request -> HttpReply;
  requests_env : list Post -> Post -> HttpReply;
  db_env : list Sql -> Sql -> DbReply;
  py_repr : pyval -> string
}.

Record World : Type := mkWorld {
  tokens_table : list Row;
  db_log : list Sql;          (* statements sent, oldest first *)
  api_log : list Request;     (* httpx requests sent, oldest first *)
  post_log : list Post;       (* requests.post calls, oldest first *)
  logs : list (Level * string)
}.

Definition set_tokens_table (t : list Row) (w : World) : World :=
  mkWorld t (db_log w) (api_log w) (post_log w) (logs w).
Definition add_db_log (q : Sql) (w : World) : World :=
  mkWorld (tokens_table w) (db_log w ++ [q])%list (api_log w) (post_log w) (logs w).
Definition add_api_log (r : Request) (w : World) : World :=
  mkWorld (tokens_table w) (db_log w) (api_log w ++ [r])%list (post_log w) (logs w).
Definition add_post_log (p : Post) (w : World) : World :=
  mkWorld (tokens_table w) (db_log w) (api_log w) (post_log w ++ [p])%list (logs w).
Definition add_log (l : Level * string) (w : World) : World :=
  mkWorld (tokens_table w) (db_log w) (api_log w) (post_log w) (logs w ++ [l])%list.

(** *** SQL *)

(** [ORDER BY updated_at DESC LIMIT 1]: a row whose [updated_at] is largest
    (SQL leaves the choice among equal timestamps open; this is the first
    such row of the table). *)
Fixpoint latest (rows : list Row) : option Row :=
  match rows with
  | [] => None
  | r :: rest =>
      match latest rest with
      | None => Some r
      | Some r' => if (row_updated_at r <? row_updated_at r')%Z then Some r' else Some r
      end
  end.

(** [cur.fetchone()] after the SELECT: the tuple of the two columns. *)
Definition fetchone (rows : list Row) : option (pyval * pyval) :=
  match latest rows with
  | Some r => Some (row_access_token r, row_refresh_token r)
  | None => None
  end.

(** The UPDATE: every row with [id = 1] gets the pair and the timestamp. *)
Definition sql_update (now : Z) (a r : pyval) (rows : list Row) : list Row :=
  map (fun row => if (row_id row =? 1)%Z then mkRow (row_id row) a r now else row) rows.

(** ** Methods, for a fixed environment *)

Section Methods.

Variable env : Env.

(** *** Primitives of the libraries *)

Definition logger_info (msg : string) : M World unit := modify (add_log (INFO, msg)).
Definition logger_error (msg : string) : M World unit := modify (add_log (ERROR, msg)).

(** [psycopg2.connect], [cur.execute], ([conn.commit],) [cur.close],
    [conn.close] for one statement.  The result is what [cur.fetchone()]
    gives after a SELECT. *)
Definition db_run (q : Sql) : M World (option (pyval * pyval)) :=
  fun w =>
    let w1 := add_db_log q w in
    match db_env env (db_log w) q with
    | DbOk now =>
        match q with
        | SelectLatestTokens => (Ok (fetchone (tokens_table w)), w1)
        | UpdateTokens a r => (Ok None, set_tokens_table (sql_update now a r (tokens_table w)) w1)
        end
    | DbFault BeforeCommit _ e => (Raise e, w1)
    | DbFault AfterCommit now e =>
        match q with
        | SelectLatestTokens => (Raise e, w1)
        | UpdateTokens a r => (Raise e, set_tokens_table (sql_update now a r (tokens_table w)) w1)
        end
    end.

(** [await client.request(method, url, headers=..., **kwargs)]. *)
Definition client_request (rq : Request) : M World Response :=
  fun w =>
    let w1 := add_api_log rq w in
    match httpx_env env (api_log w) rq with
    | Responded r => (Ok r, w1)
    | TransportFailed msg => (Raise (TransportError msg), w1)
    end.

(** [requests.post(url, data=..., headers=...)]. *)
Definition requests_post (p : Post) : M World Response :=
  fun w =>
    let w1 := add_post_log p w in
    match requests_env env (post_log w) p with
    | Responded r => (Ok r, w1)
    | TransportFailed msg => (Raise (ConnectionError msg), w1)
    end.

(** [httpx.Response.raise_for_status]: raises unless the status is 2xx. *)
Definition is_success (status : Z) : bool := ((200 <=? status) && (status <=? 299))%Z.
Definition httpx_raise_for_status {St} (r : Response) : M St unit :=
  if is_success (status_code r) then ret tt else raise (HTTPStatusError (status_code r)).

(** [requests.Response.raise_for_status]: raises for 4xx and 5xx only. *)
Definition is_http_error (status : Z) : bool := ((400 <=? status) && (status <? 600))%Z.
Definition requests_raise_for_status {St} (r : Response) : M St unit :=
  if is_http_error (status_code r) then raise (HTTPError (status_code r)) else ret tt.

(** [response.json()] of the two libraries. *)
Definition httpx_json {St} (r : Response) : M St pyval :=
  match json_body r with
  | Some v => ret v
  | None => raise (JSONDecodeError "Expecting value")
  end.
Definition requests_json {St} (r : Response) : M St pyval :=
  match json_body r with
  | Some v => ret v
  | None => raise (RequestsJSONDecodeError "Expecting value")
  end.

(** *** Python built-ins *)

Fixpoint dict_lookup (k : string) (d : list (string * pyval)) : option pyval :=
  match d with
  | [] => None
  | (k', v) :: rest => if String.eqb k k' then Some v else dict_lookup k rest
  end.

(** [v[key]]. *)
Definition subscript {St} (v : pyval) (key : string) : M St pyval :=
  match v with
  | PyDict d =>
      match dict_lookup key d with
      | Some x => ret x
      | None => raise (KeyError key)
      end
  | PyList _ => raise (TypeError "list indices must be integers or slices, not str")
  | PyStr _ => raise (TypeError "string indices must be integers")
  | _ => raise (TypeError "object is not subscriptable")
  end.

(** [v.get(key, default)]. *)
Definition py_get {St} (v : pyval) (key : string) (default : pyval) : M St pyval :=
  match v with
  | PyDict d =>
      match dict_lookup key d with
      | Some x => ret x
      | None => ret default
      end
  | _ => raise (AttributeError "object has no attribute 'get'")
  end.

(** [str(v)], also what [f"{v}"] inserts. *)
Definition py_str (v : pyval) : string :=
  match v with
  | PyStr s => s
  | _ => py_repr env v
  end.

Definition isinstance_dict (v : pyval) : bool :=
  match v with PyDict _ => true | _ => false end.

(** *** class GHLAPI *)

Record GHLAPI : Type := mkGHLAPI {
  base_url : string;
  oauth_url : string;
  token_url : string;
  client_id : string;
  client_secret : string;
  access_token : pyval;
  refresh_token : pyval;
  headers : list (string * string)
}.

(** A method of [GHLAPI] runs on the object and the world. *)
Record State : Type := mkState {
  self : GHLAPI;
  world : World
}.

Definition lift {A} (m : M World A) : M State A :=
  fun s => let (o, w') := m (world s) in (o, mkState (self s) w').

Definition set_access_token (v : pyval) (o : GHLAPI) : GHLAPI :=
  mkGHLAPI (base_url o) (oauth_url o) (token_url o) (client_id o) (client_secret o)
           v (refresh_token o) (headers o).
Definition set_refresh_token (v : pyval) (o : GHLAPI) : GHLAPI :=
  mkGHLAPI (base_url o) (oauth_url o) (token_url o) (client_id o) (client_secret o)
           (access_token o) v (headers o).
Definition set_headers (h : list (string * string)) (o : GHLAPI) : GHLAPI :=
  mkGHLAPI (base_url o) (oauth_url o) (token_url o) (client_id o) (client_secret o)
           (access_token o) (refresh_token o) h.

Definition on_self (f : GHLAPI -> GHLAPI) : M State unit :=
  modify (fun s => mkState (f (self s)) (world s)).

(** The dict [update_headers] builds for the access token [tok]. *)
Definition bearer_headers (tok : pyval) : list (string * string) :=
  [ ("Authorization", "Bearer " ++ py_str tok);
    ("Content-Type", "application/json");
    ("Version", "2021-04-15") ].

Definition update_headers : M State unit :=
  on_self (fun o => set_headers (bearer_headers (access_token o)) o).

Definition get_tokens : M World (pyval * pyval) :=
  try_except
    (tokens <- db_run SelectLatestTokens ;;
     match tokens with
     | None =>
         logger_error "No tokens found in database" ;;
         raise (ValueError "No tokens found in database")
     | Some (tokens_0, tokens_1) =>
         logger_info "Successfully retrieved tokens from database" ;;
         ret (tokens_0, tokens_1)
     end)
    (fun e =>
       match e with
       | OperationalError _ =>
           logger_error ("Database connection error: " ++ exn_str e) ;;
           raise (ValueError ("Failed to connect to database: " ++ exn_str e))
       | _ =>
           logger_error ("Error getting tokens from database: " ++ exn_str e) ;;
           raise e
       end).

Definition update_tokens (new_access_token new_refresh_token : pyval) : M State unit :=
  try_except
    (lift (db_run (UpdateTokens new_access_token new_refresh_token)) ;;
     on_self (set_access_token new_access_token) ;;
     on_self (set_refresh_token new_refresh_token) ;;
     update_headers ;;
     lift (logger_info "Tokens updated successfully in database"))
    (fun e =>
       match e with
       | OperationalError _ =>
           lift (logger_error ("Database connection error: " ++ exn_str e)) ;;
           raise (ValueError ("Failed to connect to database: " ++ exn_str e))
       | _ =>
           lift (logger_error ("Error updating tokens in database: " ++ exn_str e)) ;;
           raise e
       end).

(** The form [refresh_access_token] posts, and its call of [requests.post]. *)
Definition refresh_form (o : GHLAPI) : list (string * pyval) :=
  [ ("grant_type", PyStr "refresh_token");
    ("refresh_token", refresh_token o);
    ("client_id", PyStr (client_id o));
    ("client_secret", PyStr (client_secret o)) ].

Definition refresh_post (o : GHLAPI) : Post :=
  mkPost (token_url o) (refresh_form o)
         [("Content-Type", "application/x-www-form-urlencoded")].

Definition refresh_access_token : M State bool :=
  try_except
    (o <- gets self ;;
     response <- lift (requests_post (refresh_post o)) ;;
     requests_raise_for_status response ;;
     tokens <- requests_json response ;;
     new_access_token <- subscript tokens "access_token" ;;
     new_refresh_token <- subscript tokens "refresh_token" ;;
     update_tokens new_access_token new_refresh_token ;;
     lift (logger_info "✅ Tokens refreshed successfully") ;;
     ret true)
    (fun e =>
       lift (logger_error ("❌ Failed to refresh tokens: " ++ exn_str e)) ;;
       ret false).

(** The request [_make_request] sends with the object's current headers;
    [kwargs] is the [json=] keyword when there is one. *)
Definition api_request (o : GHLAPI) (method endpoint : string) (kwargs : option pyval)
  : Request :=
  mkRequest method (base_url o ++ "/" ++ endpoint) (headers o) kwargs.

Definition _make_request (method endpoint : string) (kwargs : option pyval)
  : M State pyval :=
  try_except
    (o <- gets self ;;
     response <- lift (client_request (api_request o method endpoint kwargs)) ;;
     response <-
       (if (status_code response =? 401)%Z then
          lift (logger_info "🔴 Access token expired! Refreshing...") ;;
          refreshed <- refresh_access_token ;;
          if refreshed : bool then
            update_headers ;;
            o <- gets self ;;
            lift (client_request (api_request o method endpoint kwargs))
          else ret response
        else ret response) ;;
     httpx_raise_for_status response ;;
     httpx_json response)
    (fun e =>
       lift (logger_error ("Error making API request: " ++ exn_str e)) ;;
       raise e).

Definition get_contact_pipeline (contact_id : string) : M State pyval :=
  try_except
    (data <- _make_request "GET" ("contacts/" ++ contact_id) None ;;
     pipeline <- py_get data "pipeline" (PyDict []) ;;
     pipeline_name <-
       (if isinstance_dict pipeline
        then py_get pipeline "name" (PyStr "")
        else ret (PyStr (py_str pipeline))) ;;
     lift (logger_info ("Contact " ++ contact_id ++ " is in pipeline: "
                          ++ py_str pipeline_name)) ;;
     ret pipeline_name)
    (fun e =>
       lift (logger_error ("Error getting contact pipeline: " ++ exn_str e)) ;;
       ret (PyStr "")).

Definition sms_payload (contact_id message : string) : pyval :=
  PyDict [ ("contactId", PyStr contact_id);
           ("message", PyStr message);
           ("type", PyStr "SMS");
           ("direction", PyStr "outbound") ].

Definition send_sms (contact_id message : string) : M State bool :=
  try_except
    (_make_request "POST" "conversations/messages"
                   (Some (sms_payload contact_id message)) ;;
     lift (logger_info ("SMS sent successfully to " ++ contact_id)) ;;
     ret true)
    (fun e =>
       lift (logger_error ("Error sending SMS: " ++ exn_str e)) ;;
       ret false).


End Methods.

(** *** class GHLClient *)

Module GHLClient.

Record t : Type := mk {
  base_url : string;
  oauth_url : string
}.

(** [GHLClient.__init__]. *)
Definition init : t :=
  mk "https://services.leadconnectorhq.com" "https://marketplace.gohighlevel.com/oauth".

(** [params[k] = v] on a dict of strings. *)
Fixpoint dict_set (k v : string) (d : list (string * string)) : list (string * string) :=
  match d with
  | [] => [(k, v)]
  | (k', v') :: rest =>
      if String.eqb k k' then (k, v) :: rest else (k', v') :: dict_set k v rest
  end.

(** The truth value of a [str]. *)
Definition truthy (s : string) : bool :=
  match s with EmptyString => false | _ => true end.

Definition scope : string :=
  "contacts.readonly contacts.write conversations.readonly conversations.write locations.readonly locations.write opportunities.readonly opportunities.write users.readonly users.write".

(** The dict [params] as [get_authorization_url] has it before the join. *)
Definition authorization_params (client_id redirect_uri : string) (state : option string)
  : list (string * string) :=
  let params := [ ("client_id", client_id);
                  ("redirect_uri", redirect_uri);
                  ("response_type", "code");
                  ("scope", scope) ] in
  match state with
  | Some st => if truthy st then dict_set "state" st params else params
  | None => params
  end.

Definition get_authorization_url (c : t) (client_id redirect_uri : string)
  (state : option string) : string :=
  let params := authorization_params client_id redirect_uri state in
  let query_string := String.concat "&" (map (fun kv => fst kv ++ "=" ++ snd kv) params) in
  oauth_url c ++ "/authorize?" ++ query_string.

(** The call of [requests.post] in [exchange_code_for_token]. *)
Definition exchange_post (c : t) (code client_id client_secret redirect_uri : string)
  : Post :=
  mkPost (oauth_url c ++ "/token")
         [ ("grant_type", PyStr "authorization_code");
           ("code", PyStr code);
           ("client_id", PyStr client_id);
           ("client_secret", PyStr client_secret);
           ("redirect_uri", PyStr redirect_uri) ]
         [].

Definition exchange_code_for_token (env : Env) (c : t)
  (code client_id client_secret redirect_uri : string) : M World pyval :=
  try_except
    (response <- requests_post env
                   (exchange_post c code client_id client_secret redirect_uri) ;;
     requests_raise_for_status response ;;
     requests_json response)
    (fun e =>
       if is_RequestException e then
         logger_error ("Error exchanging code for token: " ++ exn_str e) ;;
         raise e
       else raise e).

End GHLClient.


(** ** Reading a URL back *)

(** What the standard library does to recover the query parameters of a URL,
    [urllib.parse.parse_qsl(urllib.parse.urlsplit(url).query)]: tabs and
    line ends are dropped, the fragment is cut at the first [#], the query
    starts after the first [?], is split at every [&], each piece at its first
    [=]; pieces that are empty, have no [=] or have an empty value are
    skipped; in names and values [+] stands for a space and [%XX] for the
    byte XX. *)
Module Url.

Fixpoint has_char (c : ascii) (s : string) : bool :=
  match s with
  | EmptyString => false
  | String x rest => Ascii.eqb x c || has_char c rest
  end.

Fixpoint remove_char (c : ascii) (s : string) : string :=
  match s with
  | EmptyString => EmptyString
  | String x rest => if Ascii.eqb x c then remove_char c rest else String x (remove_char c rest)
  end.

(** [s.split(c, 1)[0]]. *)
Fixpoint before (c : ascii) (s : string) : string :=
  match s with
  | EmptyString => EmptyString
  | String x rest => if Ascii.eqb x c then EmptyString else String x (before c rest)
  end.

(** [s.split(c, 1)]: [None] when [c] does not occur. *)
Fixpoint split_first (c : ascii) (s : string) : option (string * string) :=
  match s with
  | EmptyString => None
  | String x rest =>
      if Ascii.eqb x c then Some (EmptyString, rest)
      else match split_first c rest with
           | Some (a, b) => Some (String x a, b)
           | None => None
           end
  end.

(** [s.split(c)]. *)
Fixpoint split_on (c : ascii) (s : string) : list string :=
  match s with
  | EmptyString => [EmptyString]
  | String x rest =>
      match split_on c rest with
      | [] => []
      | piece :: pieces =>
          if Ascii.eqb x c then EmptyString :: piece :: pieces
          else String x piece :: pieces
      end
  end.

Definition hex_digit (c : ascii) : option nat :=
  let n := nat_of_ascii c in
  if (48 <=? n)%nat && (n <=? 57)%nat then Some (n - 48)%nat
  else if (65 <=? n)%nat && (n <=? 70)%nat then Some (n - 55)%nat
  else if (97 <=? n)%nat && (n <=? 102)%nat then Some (n - 87)%nat
  else None.

(** [unquote(s.replace('+', ' '))]. *)
Fixpoint unquote_plus (s : string) : string :=
  match s with
  | EmptyString => EmptyString
  | String c rest =>
      if Ascii.eqb c "+" then String " " (unquote_plus rest)
      else if Ascii.eqb c "%" then
        match rest with
        | String h1 (String h2 rest') =>
            match hex_digit h1, hex_digit h2 with
            | Some a, Some b => String (ascii_of_nat (16 * a + b)) (unquote_plus rest')
            | _, _ => String c (unquote_plus rest)
            end
        | _ => String c (unquote_plus rest)
        end
      else String c (unquote_plus rest)
  end.

(** [urlsplit(url).query]. *)
Definition query (url : string) : string :=
  let url := remove_char "009" (remove_char "013" (remove_char "010" url)) in
  match split_first "?" (before "#" url) with
  | Some (_, q) => q
  | None => EmptyString
  end.

Definition parse_piece (piece : string) : option (string * string) :=
  match split_first "=" piece with
  | Some (name, value) =>
      match value with
      | EmptyString => None
      | _ => Some (unquote_plus name, unquote_plus value)
      end
  | None => None
  end.

Fixpoint parse_pieces (pieces : list string) : list (string * string) :=
  match pieces with
  | [] => []
  | piece :: rest =>
      match parse_piece piece with
      | Some nv => nv :: parse_pieces rest
      | None => parse_pieces rest
      end
  end.

Definition parse_qsl (qs : string) : list (string * string) :=
  parse_pieces (split_on "&" qs).

(** [parse_qs(urlsplit(url).query).get(name, [])]: the values of [name]. *)
Definition values (name : string) (url : string) : list string :=
  map snd (filter (fun nv => String.eqb (fst nv) name) (parse_qsl (query url))).

(** A value that needs no encoding: not empty, and without [&], [#], [+],
    [%], tab, line feed and carriage return. *)
Definition plain (s : string) : bool :=
  GHLClient.truthy s
  && negb (has_char "&" s) && negb (has_char "#" s) && negb (has_char "+" s)
  && negb (has_char "%" s) && negb (has_char "009" s) && negb (has_char "010" s)
  && negb (has_char "013" s).

(** A parameter name that needs no encoding. *)
Definition plain_name (s : string) : bool :=
  negb (has_char "=" s)
  && negb (has_char "&" s) && negb (has_char "#" s) && negb (has_char "+" s)
  && negb (has_char "%" s) && negb (has_char "009" s) && negb (has_char "010" s)
  && negb (has_char "013" s).

Definition plain_param (kv : string * string) : bool :=
  plain_name (fst kv) && plain (snd kv).

End Url.
(** ** States that the statements below name *)

(** The object after [update_tokens a r] went through. *)
Definition with_tokens (env : Env) (a r : pyval) (o : GHLAPI) : GHLAPI :=
  set_headers (bearer_headers env a) (set_refresh_token r (set_access_token a o)).

(** The world after the UPDATE committed at time [now]. *)
Definition committed (now : Z) (a r : pyval) (w : World) : World :=
  set_tokens_table (sql_update now a r (tokens_table w)) (add_db_log (UpdateTokens a r) w).

(** The pair a dict answered by a token endpoint carries, if it has both
    fields. *)
Definition token_fields (v : pyval) : option (pyval * pyval) :=
  match v with
  | PyDict d =>
      match dict_lookup "access_token" d, dict_lookup "refresh_token" d with
      | Some a, Some r => Some (a, r)
      | _, _ => None
      end
  | _ => None
  end.

(** The pair the token endpoint grants to [refresh_access_token]: the reply
    is a response, [requests] does not raise for its status, and its body is
    a JSON object with both fields. *)
Definition granted_pair (reply : HttpReply) : option (pyval * pyval) :=
  match reply with
  | Responded resp =>
      if is_http_error (status_code resp) then None
      else match json_body resp with
           | Some v => token_fields v
           | None => None
           end
  | TransportFailed _ => None
  end.

(** The failures of the token endpoint: a transport error, a status that
    [requests] raises for, a body that is not JSON, a body without one of the
    two fields. *)
Inductive refresh_failure : HttpReply -> Prop :=
| RF_transport msg : refresh_failure (TransportFailed msg)
| RF_status resp :
    is_http_error (status_code resp) = true -> refresh_failure (Responded resp)
| RF_not_json resp :
    json_body resp = None -> refresh_failure (Responded resp)
| RF_missing_field resp v :
    json_body resp = Some v -> token_fields v = None -> refresh_failure (Responded resp).

(** The state in which [refresh_access_token] calls [update_tokens]. *)
Definition posted (s : State) : State :=
  mkState (self s) (add_post_log (refresh_post (self s)) (world s)).

(** The state a successful [refresh_access_token] leaves: the pair [(a, r)]
    was committed at time [now]. *)
Definition refreshed (env : Env) (now : Z) (a r : pyval) (s : State) : State :=
  mkState (with_tokens env a r (self s))
          (add_log (INFO, "✅ Tokens refreshed successfully")
             (add_log (INFO, "Tokens updated successfully in database")
                (committed now a r (world (posted s))))).

(** The token endpoint grants a pair and the store commits it. *)
Definition refresh_succeeds (env : Env) (s : State) : Prop :=
  exists a r now,
    granted_pair (requests_env env (post_log (world s)) (refresh_post (self s))) = Some (a, r)
    /\ db_env env (db_log (world s)) (UpdateTokens a r) = DbOk now.

(** [response.raise_for_status()] then [return response.json()], on an
    [httpx] response. *)
Definition settle (r : Response) : Outcome pyval :=
  if is_success (status_code r) then
    match json_body r with
    | Some v => Ok v
    | None => Raise (JSONDecodeError "Expecting value")
    end
  else Raise (HTTPStatusError (status_code r)).

(** The same with the [except] clause of [_make_request], which logs the
    exception and raises it again. *)
Definition conclude (r : Response) (s : State) : Outcome pyval * State :=
  match settle r with
  | Ok v => (Ok v, s)
  | Raise e =>
      (Raise e,
       mkState (self s)
               (add_log (ERROR, "Error making API request: " ++ exn_str e) (world s)))
  end.

(** The state in which [_make_request] calls [refresh_access_token], after a
    first response with status 401. *)
Definition expired (s : State) (method endpoint : string) (kwargs : option pyval) : State :=
  mkState (self s)
          (add_log (INFO, "🔴 Access token expired! Refreshing...")
                   (add_api_log (api_request (self s) method endpoint kwargs) (world s))).

(** [_make_request] after a refresh that returned [True], from the state
    [s2] the refresh left: the headers are rebuilt and the request is sent
    again. *)
Definition retry (env : Env) (method endpoint : string) (kwargs : option pyval) (s2 : State)
  : Outcome pyval * State :=
  let o3 := set_headers (bearer_headers env (access_token (self s2))) (self s2) in
  let rq2 := api_request o3 method endpoint kwargs in
  match httpx_env env (api_log (world s2)) rq2 with
  | Responded r2 => conclude r2 (mkState o3 (add_api_log rq2 (world s2)))
  | TransportFailed msg =>
      (Raise (TransportError msg),
       mkState o3
               (add_log (ERROR, "Error making API request: " ++ exn_str (TransportError msg))
                        (add_api_log rq2 (world s2))))
  end.

(** The business API answers 401 to whatever it is sent. *)
Definition always_401 (env : Env) : Prop :=
  forall history rq, exists r,
    httpx_env env history rq = Responded r /\ status_code r = 401%Z.

(** The statuses whose response has no body on the wire: [http.client], below
    [requests], and [h11], below [httpx], read none for 1xx, 204 and 304.  A
    reply with such a status and a JSON body never reaches the code. *)
Definition carries_no_body (status : Z) : bool :=
  ((100 <=? status) && (status <? 200) || (status =? 204) || (status =? 304))%Z.

Definition receivable (reply : HttpReply) : Prop :=
  match reply with
  | Responded r => carries_no_body (status_code r) = true -> json_body r = None
  | TransportFailed _ => True
  end.

(** ** Concrete objects and environments, for the examples *)

Module Fixture.

Definition settings0 : Settings :=
  mkSettings "cid" "secret" "https://bot.example/oauth/callback" "postgresql://db".

Definition repr0 (v : pyval) : string := "<object>".

Definition A1 : pyval := PyStr "A1".
Definition R1 : pyval := PyStr "R1".
Definition A2 : pyval := PyStr "A2".
Definition R2 : pyval := PyStr "R2".

(** The object as [GHLAPI.__init__] leaves it when the store holds (A1, R1). *)
Definition api0 : GHLAPI :=
  mkGHLAPI "https://services.leadconnectorhq.com"
           "https://marketplace.gohighlevel.com/oauth"
           "https://services.leadconnectorhq.com/oauth/token"
           "cid" "secret" A1 R1
           [ ("Authorization", "Bearer A1");
             ("Content-Type", "application/json");
             ("Version", "2021-04-15") ].

Definition world0 : World := mkWorld [mkRow 1 A1 R1 10] [] [] [] [].
Definition empty_world : World := mkWorld [] [] [] [] [].
Definition state0 : State := mkState api0 world0.

Definition empty_state : State := mkState api0 empty_world.

Fixpoint header (k : string) (h : list (string * string)) : option string :=
  match h with
  | [] => None
  | (k', v) :: rest => if String.eqb k k' then Some v else header k rest
  end.

Definition contact : pyval :=
  PyDict [("id", PyStr "123"); ("pipeline", PyDict [("name", PyStr "sales")])].

(** A business API that takes the token A2 and rejects every other. *)
Definition api_accepts_A2 (_ : list Request) (rq : Request) : HttpReply :=
  match header "Authorization" (req_headers rq) with
  | Some "Bearer A2" => Responded (mkResponse 200 (Some contact))
  | _ => Responded (mkResponse 401 None)
  end.

(** A business API that takes the token A2, rejects every other, and answers
    an accepted request with 204 No Content. *)
Definition api_no_content (_ : list Request) (rq : Request) : HttpReply :=
  match header "Authorization" (req_headers rq) with
  | Some "Bearer A2" => Responded (mkResponse 204 None)
  | _ => Responded (mkResponse 401 None)
  end.

Definition api_always_401 (_ : list Request) (_ : Request) : HttpReply :=
  Responded (mkResponse 401 (Some (PyDict [("message", PyStr "Unauthorized")]))).

Definition api_unreachable (_ : list Request) (_ : Request) : HttpReply :=
  TransportFailed "connection reset".

Definition token_grants_A2 (_ : list Post) (_ : Post) : HttpReply :=
  Responded (mkResponse 200 (Some (PyDict [("access_token", A2); ("refresh_token", R2)]))).

Definition token_invalid_grant (_ : list Post) (_ : Post) : HttpReply :=
  Responded (mkResponse 400 (Some (PyDict [("error", PyStr "invalid_grant")]))).

(** A token endpoint that answers 300 Multiple Choices, a status outside 2xx
    that [requests] neither follows nor raises for, with a pair in the body. *)
Definition token_multiple_choices (_ : list Post) (_ : Post) : HttpReply :=
  Responded (mkResponse 300 (Some (PyDict [("access_token", A2); ("refresh_token", R2)]))).

Definition token_empty_object (_ : list Post) (_ : Post) : HttpReply :=
  Responded (mkResponse 200 (Some (PyDict []))).

Definition db_up (_ : list Sql) (_ : Sql) : DbReply := DbOk 20.
Definition db_down (_ : list Sql) (_ : Sql) : DbReply :=
  DbFault BeforeCommit 20 (OperationalError "could not connect to server").

Definition env_refreshing : Env := mkEnv settings0 api_accepts_A2 token_grants_A2 db_up repr0.
Definition env_storm : Env := mkEnv settings0 api_always_401 token_grants_A2 db_up repr0.
Definition env_invalid_grant : Env :=
  mkEnv settings0 api_always_401 token_invalid_grant db_up repr0.
Definition env_empty_object : Env :=
  mkEnv settings0 api_always_401 token_empty_object db_up repr0.
Definition env_multiple_choices : Env :=
  mkEnv settings0 api_always_401 token_multiple_choices db_up repr0.
Definition env_no_content : Env := mkEnv settings0 api_no_content token_grants_A2 db_up repr0.
Definition env_db_down : Env := mkEnv settings0 api_accepts_A2 token_grants_A2 db_down repr0.
Definition env_offline : Env := mkEnv settings0 api_unreachable token_grants_A2 db_up repr0.

End Fixture.

(** * Strings and URLs *)

Module UrlFacts.
Import Url.

Lemma append_assoc a b c : (a ++ b) ++ c = a ++ (b ++ c).
Proof. induction a as [|x a IH]; cbn; [reflexivity|]. now rewrite IH. Qed.

Lemma has_char_app c a b : has_char c (a ++ b) = has_char c a || has_char c b.
Proof.
  induction a as [|x a IH]; cbn; [reflexivity|].
  rewrite IH. now rewrite orb_assoc.
Qed.

Lemma remove_char_none c s : has_char c s = false -> remove_char c s = s.
Proof.
  induction s as [|x s IH]; cbn; [reflexivity|].
  intros H. apply orb_false_iff in H. destruct H as [Hx Hs].
  rewrite Hx. now rewrite IH.
Qed.

Lemma before_none c s : has_char c s = false -> before c s = s.
Proof.
  induction s as [|x s IH]; cbn; [reflexivity|].
  intros H. apply orb_false_iff in H. destruct H as [Hx Hs].
  rewrite Hx. now rewrite IH.
Qed.

Lemma split_on_not_nil c s : split_on c s <> [].
Proof.
  induction s as [|x s IH]; cbn; [discriminate|].
  destruct (split_on c s) as [|piece pieces]; [contradiction|].
  destruct (Ascii.eqb x c); discriminate.
Qed.

Lemma split_on_none c s : has_char c s = false -> split_on c s = [s].
Proof.
  induction s as [|x s IH]; cbn; [reflexivity|].
  intros H. apply orb_false_iff in H. destruct H as [Hx Hs].
  rewrite (IH Hs), Hx. reflexivity.
Qed.

Lemma split_on_app c a b :
  has_char c a = false -> split_on c (a ++ String c b) = a :: split_on c b.
Proof.
  induction a as [|x a IH]; cbn.
  - intros _. pose proof (split_on_not_nil c b) as Hne.
    destruct (split_on c b) as [|piece pieces]; [contradiction|].
    now rewrite Ascii.eqb_refl.
  - intros H. apply orb_false_iff in H. destruct H as [Hx Ha].
    rewrite (IH Ha), Hx. reflexivity.
Qed.

Lemma split_first_app c a b :
  has_char c a = false -> split_first c (a ++ String c b) = Some (a, b).
Proof.
  induction a as [|x a IH]; cbn.
  - intros _. now rewrite Ascii.eqb_refl.
  - intros H. apply orb_false_iff in H. destruct H as [Hx Ha].
    rewrite Hx, (IH Ha). reflexivity.
Qed.

Lemma unquote_plus_none s :
  has_char "+" s = false -> has_char "%" s = false -> unquote_plus s = s.
Proof.
  induction s as [|x s IH]; [reflexivity|].
  intros Hp Hq. cbn in Hp, Hq.
  apply orb_false_iff in Hp. apply orb_false_iff in Hq.
  destruct Hp as [Hx Hp], Hq as [Hy Hq].
  cbn [unquote_plus]. rewrite Hx, Hy. now rewrite (IH Hp Hq).
Qed.

(** Joining with a separator that the pieces do not contain, then
    splitting at it, gives the pieces back. *)
Lemma split_on_concat c pieces :
  pieces <> [] ->
  Forall (fun s => has_char c s = false) pieces ->
  split_on c (String.concat (String c "") pieces) = pieces.
Proof.
  induction pieces as [|p rest IH]; [contradiction|].
  intros _ H. inversion H as [|? ? Hp Hrest]; subst.
  destruct rest as [|q rest'].
  - cbn. now apply split_on_none.
  - change (String.concat (String c "") (p :: q :: rest'))
      with (p ++ String c (String.concat (String c "") (q :: rest'))).
    rewrite (split_on_app c p _ Hp). f_equal. apply IH; [discriminate|assumption].
Qed.

Lemma has_char_concat c sep pieces :
  has_char c sep = false ->
  Forall (fun s => has_char c s = false) pieces ->
  has_char c (String.concat sep pieces) = false.
Proof.
  intros Hsep H. induction H as [|p rest Hp Hrest IH]; [reflexivity|].
  destruct rest as [|q rest']; [exact Hp|].
  change (String.concat sep (p :: q :: rest'))
    with (p ++ sep ++ String.concat sep (q :: rest')).
  rewrite !has_char_app, Hp, Hsep, IH. reflexivity.
Qed.

Ltac split_plain H :=
  repeat (rewrite andb_true_iff in H); repeat (rewrite negb_true_iff in H);
  destruct H as (((((((? & ?) & ?) & ?) & ?) & ?) & ?) & ?).

Lemma parse_piece_rendered k v :
  plain_name k = true -> plain v = true -> parse_piece (k ++ "=" ++ v) = Some (k, v).
Proof.
  intros Hk Hv. unfold plain_name in Hk. unfold plain in Hv.
  split_plain Hk. split_plain Hv.
  unfold parse_piece. change (k ++ "=" ++ v) with (k ++ String "=" v).
  rewrite split_first_app by assumption.
  destruct v as [|x v]; [discriminate|].
  now rewrite !unquote_plus_none by assumption.
Qed.

Lemma parse_pieces_rendered params :
  forallb plain_param params = true ->
  parse_pieces (map (fun kv => fst kv ++ "=" ++ snd kv) params) = params.
Proof.
  induction params as [|[k v] rest IH]; cbn [forallb map parse_pieces]; [reflexivity|].
  intros H. apply andb_true_iff in H. destruct H as [Hkv Hrest].
  unfold plain_param in Hkv. apply andb_true_iff in Hkv. destruct Hkv as [Hk Hv].
  cbn [fst snd]. rewrite (parse_piece_rendered k v Hk Hv). now rewrite (IH Hrest).
Qed.

Lemma has_char_rendered c k v :
  has_char c k = false -> Ascii.eqb "=" c = false -> has_char c v = false ->
  has_char c (k ++ "=" ++ v) = false.
Proof.
  intros Hk Hc Hv. rewrite !has_char_app, Hk, Hv. cbn [has_char orb].
  rewrite Hc. reflexivity.
Qed.

Lemma has_char_rendered_all c params :
  Ascii.eqb "=" c = false ->
  Forall (fun kv => has_char c (fst kv) = false /\ has_char c (snd kv) = false) params ->
  Forall (fun s => has_char c s = false) (map (fun kv => fst kv ++ "=" ++ snd kv) params).
Proof.
  intros Hc H. induction H as [|[k v] rest [Hk Hv] Hrest IH]; cbn [map]; constructor.
  - now apply has_char_rendered.
  - exact IH.
Qed.

Lemma plain_param_chars c params :
  In c ["&"; "#"; "009"; "010"; "013"]%char ->
  forallb plain_param params = true ->
  Forall (fun kv => has_char c (fst kv) = false /\ has_char c (snd kv) = false) params.
Proof.
  intros Hc H. rewrite forallb_forall in H. apply Forall_forall. intros [k v] Hin.
  specialize (H _ Hin). unfold plain_param in H. apply andb_true_iff in H.
  destruct H as [Hk Hv]. unfold plain_name in Hk. unfold plain in Hv.
  split_plain Hk. split_plain Hv. cbn [fst snd].
  cbn in Hc. intuition (subst c; auto).
Qed.

(** A query string built by joining rendered parameters that need no
    encoding is read back as these parameters. *)
Lemma parse_rendered_url prefix params :
  has_char "?" prefix = false -> has_char "#" prefix = false ->
  has_char "009" prefix = false -> has_char "010" prefix = false ->
  has_char "013" prefix = false ->
  params <> [] ->
  forallb plain_param params = true ->
  parse_qsl (query (prefix ++ "?"
                      ++ String.concat "&" (map (fun kv => fst kv ++ "=" ++ snd kv) params)))
  = params.
Proof.
  intros Hq Hh Ht Hl Hr Hne Hp.
  set (q := String.concat "&" (map (fun kv => fst kv ++ "=" ++ snd kv) params)).
  assert (Hclean : forall c, In c ["#"; "009"; "010"; "013"]%char -> has_char c q = false).
  { intros c Hc. apply has_char_concat.
    - cbn in Hc. intuition (subst c; reflexivity).
    - apply has_char_rendered_all.
      + cbn in Hc. intuition (subst c; reflexivity).
      + apply plain_param_chars; [|exact Hp]. cbn in Hc |- *. intuition. }
  assert (Hurl : forall c, In c ["#"; "009"; "010"; "013"]%char ->
                           has_char c prefix = false ->
                           has_char c (prefix ++ "?" ++ q) = false).
  { intros c Hc Hpre. rewrite !has_char_app, Hpre, (Hclean c Hc).
    cbn in Hc |- *. intuition (subst c; reflexivity). }
  unfold query.
  rewrite (remove_char_none "010") by (apply Hurl; cbn; auto).
  rewrite (remove_char_none "013") by (apply Hurl; cbn; auto).
  rewrite (remove_char_none "009") by (apply Hurl; cbn; auto).
  rewrite before_none by (apply Hurl; cbn; auto).
  change (prefix ++ "?" ++ q) with (prefix ++ String "?" q).
  rewrite split_first_app by assumption.
  unfold parse_qsl, q. rewrite split_on_concat.
  - now apply parse_pieces_rendered.
  - destruct params; [contradiction|discriminate].
  - apply has_char_rendered_all; [reflexivity|].
    apply plain_param_chars; [cbn; auto|exact Hp].
Qed.

End UrlFacts.

(** * Properties *)

Local Open Scope Z_scope.

#[local] Arguments exn_str : simpl never.
#[local] Arguments String.append : simpl never.

(** ** The monad *)

Lemma bind_ok {St A B} (m : M St A) (k : A -> M St B) s a s' :
  m s = (Ok a, s') -> bind m k s = k a s'.
Proof. intros H. unfold bind. now rewrite H. Qed.

Lemma bind_raise {St A B} (m : M St A) (k : A -> M St B) s e s' :
  m s = (Raise e, s') -> bind m k s = (Raise e, s').
Proof. intros H. unfold bind. now rewrite H. Qed.

Lemma try_except_ok {St A} (m : M St A) h s a s' :
  m s = (Ok a, s') -> try_except m h s = (Ok a, s').
Proof. intros H. unfold try_except. now rewrite H. Qed.

Lemma try_except_raise {St A} (m : M St A) h s e s' :
  m s = (Raise e, s') -> try_except m h s = h e s'.
Proof. intros H. unfold try_except. now rewrite H. Qed.

Lemma lift_eq {A} (m : M World A) s o w' :
  m (world s) = (o, w') -> lift m s = (o, mkState (self s) w').
Proof. intros H. unfold lift. now rewrite H. Qed.

(** Unfolds the monad's operations on a goal where the replies of the
    environment are known. *)
Ltac mrun :=
  cbv [bind ret raise try_except gets modify lift on_self
       logger_info logger_error update_headers] ; cbn.

(** ** The store: [latest], the SELECT and the UPDATE *)

Lemma latest_none rows : latest rows = None -> rows = [].
Proof.
  destruct rows as [|r rest]; [reflexivity|].
  cbn. destruct (latest rest) as [r'|]; [|discriminate].
  destruct (row_updated_at r <? row_updated_at r'); discriminate.
Qed.

Lemma latest_in rows r : latest rows = Some r -> In r rows.
Proof.
  revert r. induction rows as [|x rest IH]; cbn; intros r H; [discriminate|].
  destruct (latest rest) as [r'|] eqn:E.
  - destruct (row_updated_at x <? row_updated_at r'); inversion H; subst; auto.
  - inversion H; auto.
Qed.

Lemma latest_max rows r :
  latest rows = Some r ->
  forall r', In r' rows -> row_updated_at r' <= row_updated_at r.
Proof.
  revert r. induction rows as [|x rest IH]; cbn; intros r H r' Hin; [tauto|].
  destruct (latest rest) as [m|] eqn:E.
  - specialize (IH m eq_refl).
    destruct (Z.ltb_spec (row_updated_at x) (row_updated_at m)) as [Hlt|Hge];
      inversion H; subst; destruct Hin as [->|Hin]; try lia.
    + now apply IH.
    + specialize (IH r' Hin). lia.
  - apply latest_none in E. subst rest. inversion H; subst.
    destruct Hin as [->|[]]. lia.
Qed.

Lemma sql_update_in now a r rows row' :
  In row' (sql_update now a r rows) ->
  (exists row, In row rows /\ row_id row = 1 /\ row' = mkRow (row_id row) a r now)
  \/ (In row' rows /\ row_id row' <> 1).
Proof.
  unfold sql_update. rewrite in_map_iff. intros (row & Heq & Hin).
  destruct (Z.eqb_spec (row_id row) 1) as [H1|H1]; subst row'.
  - left. exists row. auto.
  - right. auto.
Qed.

Lemma sql_update_hits now a r rows row :
  In row rows -> row_id row = 1 ->
  In (mkRow (row_id row) a r now) (sql_update now a r rows).
Proof.
  intros Hin H1. unfold sql_update. apply in_map_iff. exists row. split; [|assumption].
  rewrite H1. reflexivity.
Qed.

(** After the UPDATE found its row, and when no other row is as recent as
    the UPDATE's timestamp, the SELECT reads back the pair just written. *)
Lemma fetchone_after_update now a r rows :
  (exists row, In row rows /\ row_id row = 1) ->
  (forall row, In row rows -> row_id row <> 1 -> row_updated_at row < now) ->
  fetchone (sql_update now a r rows) = Some (a, r).
Proof.
  intros (row1 & Hin1 & Hid1) Hothers. unfold fetchone.
  destruct (latest (sql_update now a r rows)) as [m|] eqn:E.
  - pose proof (latest_in _ _ E) as Hm.
    pose proof (latest_max _ _ E _ (sql_update_hits now a r rows row1 Hin1 Hid1)) as Hmax.
    cbn in Hmax.
    apply sql_update_in in Hm. destruct Hm as [(row & _ & _ & ->)|[Hm Hne]].
    + reflexivity.
    + specialize (Hothers m Hm Hne). lia.
  - apply latest_none in E.
    pose proof (sql_update_hits now a r rows row1 Hin1 Hid1) as H. rewrite E in H. destruct H.
Qed.

(** ** [update_tokens] *)

Section UpdateTokens.

Variable env : Env.

Lemma update_tokens_commit a r s now :
  db_env env (db_log (world s)) (UpdateTokens a r) = DbOk now ->
  update_tokens env a r s =
  (Ok tt, mkState (with_tokens env a r (self s))
                  (add_log (INFO, "Tokens updated successfully in database")
                           (committed now a r (world s)))).
Proof.
  intros H. unfold update_tokens, db_run. mrun. rewrite H. reflexivity.
Qed.

Lemma update_tokens_fault a r s stage now e :
  db_env env (db_log (world s)) (UpdateTokens a r) = DbFault stage now e ->
  exists e' w',
    update_tokens env a r s = (Raise e', mkState (self s) w')
    /\ db_log w' = (db_log (world s) ++ [UpdateTokens a r])%list
    /\ api_log w' = api_log (world s)
    /\ post_log w' = post_log (world s)
    /\ (stage = BeforeCommit -> tokens_table w' = tokens_table (world s)).
Proof.
  intros H. unfold update_tokens, db_run. mrun. rewrite H.
  destruct stage, e; cbn; eexists; eexists; (split; [reflexivity|]); cbn; intuition discriminate.
Qed.

Lemma update_tokens_ok_inv a r s s' :
  update_tokens env a r s = (Ok tt, s') ->
  exists now,
    db_env env (db_log (world s)) (UpdateTokens a r) = DbOk now
    /\ s' = mkState (with_tokens env a r (self s))
                    (add_log (INFO, "Tokens updated successfully in database")
                             (committed now a r (world s))).
Proof.
  intros H. destruct (db_env env (db_log (world s)) (UpdateTokens a r)) as [now|st now e] eqn:E.
  - exists now. split; [reflexivity|]. rewrite (update_tokens_commit _ _ _ _ E) in H.
    now inversion H.
  - destruct (update_tokens_fault _ _ _ _ _ _ E) as (e' & w' & H' & _).
    rewrite H' in H. discriminate.
Qed.

End UpdateTokens.

(** C10: when [update_tokens] raises, which it does exactly when the
    database write fails, the object is left as it was: the cached access
    token, refresh token and headers are assigned only after the commit. *)
Theorem update_tokens_failure_keeps_cache env a r s e s' :
  update_tokens env a r s = (Raise e, s') ->
  self s' = self s
  /\ access_token (self s') = access_token (self s)
  /\ refresh_token (self s') = refresh_token (self s)
  /\ headers (self s') = headers (self s)
  /\ exists stage now e0,
       db_env env (db_log (world s)) (UpdateTokens a r) = DbFault stage now e0.
Proof.
  intros H.
  destruct (db_env env (db_log (world s)) (UpdateTokens a r)) as [now|st now e0] eqn:E.
  - rewrite (update_tokens_commit _ _ _ _ _ E) in H. discriminate.
  - destruct (update_tokens_fault _ _ _ _ _ _ _ E) as (e' & w' & H' & _).
    rewrite H' in H. inversion H; subst. cbn. repeat split. eauto.
Qed.

Lemma update_tokens_failure_keeps_cache_witness :
  self (snd (update_tokens Fixture.env_db_down Fixture.A2 Fixture.R2 Fixture.state0))
  = Fixture.api0.
Proof.
  apply (update_tokens_failure_keeps_cache Fixture.env_db_down Fixture.A2 Fixture.R2
           Fixture.state0
           (ValueError "Failed to connect to database: could not connect to server")).
  reflexivity.
Defined.

(** ** [get_tokens] *)

Lemma get_tokens_ok env w now :
  db_env env (db_log w) SelectLatestTokens = DbOk now ->
  fst (get_tokens env w) =
  match fetchone (tokens_table w) with
  | Some p => Ok p
  | None => Raise (ValueError "No tokens found in database")
  end.
Proof.
  intros H. unfold get_tokens, db_run. mrun. rewrite H.
  destruct (fetchone (tokens_table w)) as [[a r]|]; reflexivity.
Qed.

(** C6, as the code has it: on an empty table [get_tokens] raises
    [ValueError("No tokens found in database")]; when the database raises
    [OperationalError] it raises [ValueError("Failed to connect to database:
    ...")]; any other database error is raised again as it is; otherwise it
    returns the two tokens of a row whose [updated_at] is the largest. *)
Theorem get_tokens_outcome env w :
  fst (get_tokens env w) =
  match db_env env (db_log w) SelectLatestTokens with
  | DbOk _ =>
      match latest (tokens_table w) with
      | None => Raise (ValueError "No tokens found in database")
      | Some row => Ok (row_access_token row, row_refresh_token row)
      end
  | DbFault _ _ (OperationalError m) =>
      Raise (ValueError ("Failed to connect to database: " ++ m))
  | DbFault _ _ e => Raise e
  end
  /\ (latest (tokens_table w) = None <-> tokens_table w = [])
  /\ (forall row, latest (tokens_table w) = Some row ->
        In row (tokens_table w)
        /\ forall row', In row' (tokens_table w) ->
                        row_updated_at row' <= row_updated_at row).
Proof.
  split; [|split].
  - destruct (db_env env (db_log w) SelectLatestTokens) as [now|st now e] eqn:E.
    + rewrite (get_tokens_ok _ _ _ E). unfold fetchone.
      destruct (latest (tokens_table w)); reflexivity.
    + unfold get_tokens, db_run. mrun. rewrite E. destruct st, e; reflexivity.
  - split; [apply latest_none | intros ->; reflexivity].
  - intros row H. split; [now apply latest_in | now apply latest_max].
Qed.

Lemma get_tokens_outcome_witness :
  fst (get_tokens Fixture.env_refreshing Fixture.world0) = Ok (Fixture.A1, Fixture.R1).
Proof.
  exact (proj1 (get_tokens_outcome Fixture.env_refreshing Fixture.world0)).
Defined.

(** C6 as the specification words it fails: the exception on an empty store
    is a [ValueError], not a [NotFoundError], and the one for an unreachable
    database is a [ValueError] too, not a [StoreUnavailableError]. *)
Lemma get_tokens_raises_ValueError :
  fst (get_tokens Fixture.env_refreshing Fixture.empty_world)
  = Raise (ValueError "No tokens found in database")
  /\ ~ raises_class "NotFoundError"
         (fst (get_tokens Fixture.env_refreshing Fixture.empty_world))
  /\ fst (get_tokens Fixture.env_db_down Fixture.world0)
     = Raise (ValueError "Failed to connect to database: could not connect to server")
  /\ ~ raises_class "StoreUnavailableError"
         (fst (get_tokens Fixture.env_db_down Fixture.world0)).
Proof.
  repeat split; try reflexivity; intros (e & H & Hc); vm_compute in H;
    inversion H; subst e; discriminate.
Qed.

(** ** Saving, then loading *)

(** C3, as the code has it: [update_tokens] is an UPDATE of the row with
    [id = 1].  When that row exists and no other row is as recent as the
    UPDATE's timestamp, [get_tokens] afterwards returns exactly the pair
    given to [update_tokens]. *)
Theorem update_then_get_tokens env a r s s' :
  update_tokens env a r s = (Ok tt, s') ->
  (exists row, In row (tokens_table (world s)) /\ row_id row = 1) ->
  (forall now row,
      db_env env (db_log (world s)) (UpdateTokens a r) = DbOk now ->
      In row (tokens_table (world s)) -> row_id row <> 1 -> row_updated_at row < now) ->
  (exists now', db_env env (db_log (world s')) SelectLatestTokens = DbOk now') ->
  fst (get_tokens env (world s')) = Ok (a, r).
Proof.
  intros Hup Hrow Hothers (now' & Hsel).
  apply update_tokens_ok_inv in Hup. destruct Hup as (now & Hdb & ->).
  rewrite (get_tokens_ok _ _ _ Hsel). cbn.
  rewrite fetchone_after_update; [reflexivity|assumption|].
  intros row Hin Hne. now apply (Hothers now row).
Qed.

Lemma update_then_get_tokens_witness :
  fst (get_tokens Fixture.env_refreshing
         (world (snd (update_tokens Fixture.env_refreshing Fixture.A2 Fixture.R2
                        Fixture.state0))))
  = Ok (Fixture.A2, Fixture.R2).
Proof.
  apply (update_then_get_tokens Fixture.env_refreshing Fixture.A2 Fixture.R2 Fixture.state0).
  - reflexivity.
  - exists (mkRow 1 Fixture.A1 Fixture.R1 10). cbn. split; [left; reflexivity | reflexivity].
  - intros now row _ [<-|[]] Hne. cbn in Hne. congruence.
  - exists 20. reflexivity.
Defined.

(** C3 as the specification words it fails on a store without the row
    [id = 1]: on an empty table [update_tokens] succeeds, having written
    nothing, and [get_tokens] then raises. *)
Lemma update_tokens_is_not_an_upsert :
  fst (update_tokens Fixture.env_refreshing Fixture.A2 Fixture.R2 Fixture.empty_state)
  = Ok tt
  /\ tokens_table
       (world (snd (update_tokens Fixture.env_refreshing Fixture.A2 Fixture.R2
                      Fixture.empty_state))) = []
  /\ fst (get_tokens Fixture.env_refreshing
            (world (snd (update_tokens Fixture.env_refreshing Fixture.A2 Fixture.R2
                           Fixture.empty_state))))
     = Raise (ValueError "No tokens found in database").
Proof. repeat split. Qed.

(** ** [refresh_access_token] *)

Section Refresh.

Variable env : Env.

Lemma refresh_failure_iff reply : refresh_failure reply <-> granted_pair reply = None.
Proof.
  split.
  - intros H. destruct H as [msg|resp H|resp H|resp v H1 H2]; cbn.
    + reflexivity.
    + now rewrite H.
    + rewrite H. now destruct (is_http_error (status_code resp)).
    + rewrite H1, H2. now destruct (is_http_error (status_code resp)).
  - destruct reply as [resp|msg]; cbn; [|constructor].
    destruct (is_http_error (status_code resp)) eqn:E; [intros _; now apply RF_status|].
    destruct (json_body resp) as [v|] eqn:Ev; [|intros _; now apply RF_not_json].
    intros H. now apply (RF_missing_field resp v).
Qed.

(** The token endpoint fails: [refresh_access_token] logs the cause and
    returns [False]; nothing but the log and the list of posts changes. *)
Lemma refresh_rejected s :
  granted_pair (requests_env env (post_log (world s)) (refresh_post (self s))) = None ->
  exists cause,
    refresh_access_token env s =
    (Ok false,
     mkState (self s)
             (add_log (ERROR, "❌ Failed to refresh tokens: " ++ exn_str cause)
                      (add_post_log (refresh_post (self s)) (world s)))).
Proof.
  intros H. unfold refresh_access_token, requests_post. mrun.
  destruct (requests_env env (post_log (world s)) (refresh_post (self s))) as [resp|msg];
    cbn in *; [|eexists; reflexivity].
  unfold requests_raise_for_status.
  destruct (is_http_error (status_code resp)); cbn; [eexists; reflexivity|].
  unfold requests_json.
  destruct (json_body resp) as [v|]; cbn; [|eexists; reflexivity].
  destruct v as [| | | |l|d]; cbn in *; try (eexists; reflexivity).
  destruct (dict_lookup "access_token" d) as [a|]; cbn; [|eexists; reflexivity].
  destruct (dict_lookup "refresh_token" d) as [r|]; cbn; [discriminate|eexists; reflexivity].
Qed.

Lemma refresh_granted s a r :
  granted_pair (requests_env env (post_log (world s)) (refresh_post (self s))) = Some (a, r) ->
  refresh_access_token env s =
  match update_tokens env a r (posted s) with
  | (Ok _, s') => (Ok true, mkState (self s') (add_log (INFO, "✅ Tokens refreshed successfully") (world s')))
  | (Raise e, s') =>
      (Ok false, mkState (self s') (add_log (ERROR, "❌ Failed to refresh tokens: " ++ exn_str e) (world s')))
  end.
Proof.
  intros H. unfold refresh_access_token, requests_post. mrun.
  destruct (requests_env env (post_log (world s)) (refresh_post (self s))) as [resp|msg];
    cbn in *; [|discriminate].
  unfold requests_raise_for_status.
  destruct (is_http_error (status_code resp)); cbn; [discriminate|].
  unfold requests_json.
  destruct (json_body resp) as [v|]; cbn; [|discriminate].
  destruct v as [| | | |l|d]; cbn in *; try discriminate.
  destruct (dict_lookup "access_token" d) as [a'|]; cbn; [|discriminate].
  destruct (dict_lookup "refresh_token" d) as [r'|]; cbn; [|discriminate].
  inversion H; subst a' r'. unfold posted.
  destruct (update_tokens env a r _) as [[u|e] s']; reflexivity.
Qed.

End Refresh.

(** ** [_make_request] *)

Section MakeRequest.

Variable env : Env.
Variables (method endpoint : string) (kwargs : option pyval).

Lemma conclude_run r s :
  (let (o, s') :=
     let (o, s') := @httpx_raise_for_status State r s in
     match o with
     | Ok _ => @httpx_json State r s'
     | Raise e => (Raise e, s')
     end in
   match o with
   | Ok a => (Ok a, s')
   | Raise e =>
       (Raise e,
        mkState (self s')
                (add_log (ERROR, "Error making API request: " ++ exn_str e) (world s')))
   end) = conclude r s.
Proof.
  unfold conclude, settle, httpx_raise_for_status, httpx_json.
  destruct (is_success (status_code r)); cbn; [|reflexivity].
  destruct (json_body r); reflexivity.
Qed.

(** The first request meets a transport error: it is logged and raised. *)
Lemma make_request_transport s msg :
  httpx_env env (api_log (world s)) (api_request (self s) method endpoint kwargs)
  = TransportFailed msg ->
  _make_request env method endpoint kwargs s =
  (Raise (TransportError msg),
   mkState (self s)
     (add_log (ERROR, "Error making API request: " ++ exn_str (TransportError msg))
        (add_api_log (api_request (self s) method endpoint kwargs) (world s)))).
Proof.
  intros H. unfold _make_request, client_request. mrun. rewrite H. reflexivity.
Qed.

(** The first response is not a 401: no refresh, no second request. *)
Lemma make_request_plain s r1 :
  httpx_env env (api_log (world s)) (api_request (self s) method endpoint kwargs)
  = Responded r1 ->
  status_code r1 <> 401 ->
  _make_request env method endpoint kwargs s =
  conclude r1 (mkState (self s)
                 (add_api_log (api_request (self s) method endpoint kwargs) (world s))).
Proof.
  intros H Hst. unfold _make_request, client_request. mrun. rewrite H. cbn.
  apply Z.eqb_neq in Hst. rewrite Hst. cbn. apply conclude_run.
Qed.

(** The first response is a 401: one call of [refresh_access_token], then
    the retry when it returned [True]. *)
Lemma make_request_401 s r1 :
  httpx_env env (api_log (world s)) (api_request (self s) method endpoint kwargs)
  = Responded r1 ->
  status_code r1 = 401 ->
  _make_request env method endpoint kwargs s =
  match refresh_access_token env (expired s method endpoint kwargs) with
  | (Ok true, s2) => retry env method endpoint kwargs s2
  | (Ok false, s2) => conclude r1 s2
  | (Raise e, s2) =>
      (Raise e,
       mkState (self s2)
               (add_log (ERROR, "Error making API request: " ++ exn_str e) (world s2)))
  end.
Proof.
  intros H Hst. unfold _make_request, client_request. mrun. rewrite H. cbn.
  apply Z.eqb_eq in Hst. rewrite Hst. cbn. fold (expired s method endpoint kwargs).
  destruct (refresh_access_token env (expired s method endpoint kwargs)) as [[[|]|e] s2].
  - unfold retry.
    destruct (httpx_env env (api_log (world s2)) _) as [r2|msg]; cbn.
    + apply conclude_run.
    + reflexivity.
  - apply conclude_run.
  - reflexivity.
Qed.

End MakeRequest.

Section RefreshOutcomes.

Variable env : Env.

Lemma refresh_commit s a r now :
  granted_pair (requests_env env (post_log (world s)) (refresh_post (self s))) = Some (a, r) ->
  db_env env (db_log (world s)) (UpdateTokens a r) = DbOk now ->
  refresh_access_token env s = (Ok true, refreshed env now a r s).
Proof.
  intros Hg Hdb. rewrite (refresh_granted env s a r Hg).
  rewrite (update_tokens_commit env a r (posted s) now Hdb). reflexivity.
Qed.

(** The two ways [refresh_access_token] ends; it never raises. *)
Lemma refresh_cases s :
  (exists a r now,
      granted_pair (requests_env env (post_log (world s)) (refresh_post (self s)))
      = Some (a, r)
      /\ db_env env (db_log (world s)) (UpdateTokens a r) = DbOk now
      /\ refresh_access_token env s = (Ok true, refreshed env now a r s))
  \/ (~ refresh_succeeds env s
      /\ exists w',
           refresh_access_token env s = (Ok false, mkState (self s) w')
           /\ api_log w' = api_log (world s)
           /\ post_log w' = (post_log (world s) ++ [refresh_post (self s)])%list).
Proof.
  destruct (granted_pair (requests_env env (post_log (world s)) (refresh_post (self s))))
    as [[a r]|] eqn:Hg.
  - destruct (db_env env (db_log (world s)) (UpdateTokens a r)) as [now|st now e] eqn:Hdb.
    + left. exists a, r, now. repeat split; try assumption. now apply refresh_commit.
    + right. split.
      * intros (a' & r' & now' & Hg' & Hdb'). rewrite Hg in Hg'. inversion Hg'; subst.
        rewrite Hdb in Hdb'. discriminate.
      * rewrite (refresh_granted env s a r Hg).
        destruct (update_tokens_fault env a r (posted s) st now e Hdb)
          as (e' & w' & -> & _ & Hapi & Hpost & _).
        eexists. split; [reflexivity|]. cbn. split; assumption.
  - right. split.
    + intros (a' & r' & now' & Hg' & _). rewrite Hg in Hg'. discriminate.
    + destruct (refresh_rejected env s Hg) as (cause & ->).
      eexists. split; [reflexivity|]. cbn. split; reflexivity.
Qed.


Lemma conclude_fst r s : fst (conclude r s) = settle r.
Proof. unfold conclude. destruct (settle r); reflexivity. Qed.

Lemma conclude_self r s : self (snd (conclude r s)) = self s.
Proof. unfold conclude. destruct (settle r); reflexivity. Qed.

Lemma conclude_api_log r s : api_log (world (snd (conclude r s))) = api_log (world s).
Proof. unfold conclude. destruct (settle r); reflexivity. Qed.

Lemma conclude_post_log r s : post_log (world (snd (conclude r s))) = post_log (world s).
Proof. unfold conclude. destruct (settle r); reflexivity. Qed.

Lemma settle_401 r : status_code r = 401 -> settle r = Raise (HTTPStatusError 401).
Proof. intros H. unfold settle. rewrite H. reflexivity. Qed.

Lemma settle_success r v :
  is_success (status_code r) = true -> json_body r = Some v -> settle r = Ok v.
Proof. intros H1 H2. unfold settle. now rewrite H1, H2. Qed.

End RefreshOutcomes.

(** C4, as the code has it: when the call of the token endpoint meets a
    transport error, a 4xx or 5xx status, a body that is not JSON or a body
    without [access_token] or [refresh_token], [refresh_access_token] returns
    [False], having logged the cause; the object is as before, no statement
    is sent to the database and the table is unchanged. *)
Theorem refresh_failure_keeps_store env s :
  refresh_failure (requests_env env (post_log (world s)) (refresh_post (self s))) ->
  (exists cause,
      refresh_access_token env s =
      (Ok false,
       mkState (self s)
               (add_log (ERROR, "❌ Failed to refresh tokens: " ++ exn_str cause)
                        (add_post_log (refresh_post (self s)) (world s)))))
  /\ self (snd (refresh_access_token env s)) = self s
  /\ tokens_table (world (snd (refresh_access_token env s))) = tokens_table (world s)
  /\ db_log (world (snd (refresh_access_token env s))) = db_log (world s).
Proof.
  intros H. apply refresh_failure_iff in H.
  destruct (refresh_rejected env s H) as (cause & Hrun).
  split; [exists cause; exact Hrun|]. rewrite Hrun. repeat split.
Qed.

Lemma refresh_failure_keeps_store_witness :
  tokens_table (world (snd (refresh_access_token Fixture.env_invalid_grant Fixture.state0)))
  = tokens_table Fixture.world0.
Proof.
  apply (refresh_failure_keeps_store Fixture.env_invalid_grant Fixture.state0).
  apply RF_status. reflexivity.
Defined.

(** C4 as the specification words it fails.  A refresh token the provider
    rejects (HTTP 400, invalid_grant) makes [refresh_access_token] return
    [False]: no [RefreshError], and no exception at all, reaches the caller.
    And a status outside 2xx for which [requests] does not raise (300 here,
    a reply that can carry a body) is no failure for the code: with both
    fields in the body the pair is written. *)
Lemma refresh_failure_is_returned_not_raised :
  fst (refresh_access_token Fixture.env_invalid_grant Fixture.state0) = Ok false
  /\ ~ raises_class "RefreshError"
         (fst (refresh_access_token Fixture.env_invalid_grant Fixture.state0))
  /\ receivable (Fixture.token_multiple_choices [] (refresh_post Fixture.api0))
  /\ is_success 300 = false
  /\ fst (refresh_access_token Fixture.env_multiple_choices Fixture.state0) = Ok true
  /\ tokens_table
       (world (snd (refresh_access_token Fixture.env_multiple_choices Fixture.state0)))
     = [mkRow 1 Fixture.A2 Fixture.R2 20].
Proof.
  repeat split.
  - intros (e & H & _). vm_compute in H. discriminate.
  - cbn. discriminate.
Qed.





(** C1, as the code has it: the first response is a 401 and the refresh
    succeeds (the token endpoint grants a pair, the store commits it).  Then
    the object holds the new pair and the headers built from it, the
    refresher was called once, the request was sent a second time, once, with
    the same method, URL and body and with the new access token, and the call
    ends as [raise_for_status()] and [json()] of that second response do:
    with the decoded body when the status is 2xx and the body is JSON, with
    the JSON decoding error when the status is 2xx and the body is not JSON,
    with [HTTPStatusError] when the status is not 2xx. *)
Theorem make_request_refreshes_and_retries_once env method endpoint kwargs s r1 a r now :
  httpx_env env (api_log (world s)) (api_request (self s) method endpoint kwargs)
  = Responded r1 ->
  status_code r1 = 401 ->
  granted_pair (requests_env env (post_log (world s)) (refresh_post (self s))) = Some (a, r) ->
  db_env env (db_log (world s)) (UpdateTokens a r) = DbOk now ->
  let rq1 := api_request (self s) method endpoint kwargs in
  let rq2 := api_request (with_tokens env a r (self s)) method endpoint kwargs in
  let result := _make_request env method endpoint kwargs s in
  fst (refresh_access_token env (expired s method endpoint kwargs)) = Ok true
  /\ self (snd result) = with_tokens env a r (self s)
  /\ access_token (self (snd result)) = a
  /\ refresh_token (self (snd result)) = r
  /\ headers (self (snd result)) = bearer_headers env a
  /\ req_headers rq2 = bearer_headers env a
  /\ req_method rq2 = req_method rq1
  /\ req_url rq2 = req_url rq1
  /\ req_json rq2 = req_json rq1
  /\ api_log (world (snd result)) = (api_log (world s) ++ [rq1; rq2])%list
  /\ post_log (world (snd result)) = (post_log (world s) ++ [refresh_post (self s)])%list
  /\ match httpx_env env (api_log (world s) ++ [rq1]) rq2 with
     | Responded r2 =>
         fst result = settle r2
         /\ (forall v, is_success (status_code r2) = true -> json_body r2 = Some v ->
                       fst result = Ok v)
         /\ (is_success (status_code r2) = true -> json_body r2 = None ->
             fst result = Raise (JSONDecodeError "Expecting value"))
         /\ (is_success (status_code r2) = false ->
             fst result = Raise (HTTPStatusError (status_code r2)))
     | TransportFailed msg => fst result = Raise (TransportError msg)
     end.
Proof.
  intros H1 Hst Hg Hdb rq1 rq2 result.
  assert (Hrun : refresh_access_token env (expired s method endpoint kwargs)
                 = (Ok true, refreshed env now a r (expired s method endpoint kwargs))).
  { apply refresh_commit; assumption. }
  subst result. rewrite (make_request_401 env method endpoint kwargs s r1 H1 Hst).
  rewrite Hrun. unfold retry. cbn.
  fold rq1. change (api_request _ method endpoint kwargs) with rq2.
  destruct (httpx_env env (api_log (world s) ++ [rq1]) rq2) as [r2|msg].
  - rewrite conclude_self, conclude_api_log, conclude_post_log, conclude_fst. cbn.
    rewrite <- app_assoc. repeat split.
    + intros v Hs Hv. now apply settle_success.
    + intros Hs Hv. unfold settle. now rewrite Hs, Hv.
    + intros Hs. unfold settle. now rewrite Hs.
  - cbn. rewrite <- app_assoc. repeat split.
Qed.

Lemma make_request_refreshes_and_retries_once_witness :
  fst (_make_request Fixture.env_refreshing "GET" "contacts/123" None Fixture.state0)
  = Ok Fixture.contact
  /\ length (post_log (world (snd (_make_request Fixture.env_refreshing "GET" "contacts/123"
                                     None Fixture.state0)))) = 1%nat
  /\ length (api_log (world (snd (_make_request Fixture.env_refreshing "GET" "contacts/123"
                                    None Fixture.state0)))) = 2%nat.
Proof.
  destruct (make_request_refreshes_and_retries_once Fixture.env_refreshing
              "GET" "contacts/123" None Fixture.state0
              (mkResponse 401 None) Fixture.A2 Fixture.R2 20
              eq_refl eq_refl eq_refl eq_refl)
    as (_ & _ & _ & _ & _ & _ & _ & _ & _ & Hapi & Hpost & Hres).
  rewrite Hapi, Hpost. cbn in Hres. destruct Hres as (_ & Hres & _).
  split; [exact (Hres Fixture.contact eq_refl eq_refl) | split; reflexivity].
Defined.

(** C1 as the specification words it fails when the retried response is 2xx
    and has no JSON body.  The first response is a 401, the refresh succeeds,
    the request is sent again with the new token and answered 204 No Content:
    [_make_request] raises the JSON decoding error instead of returning a
    result, and [send_sms] reports the message it delivered as not sent. *)
Lemma retried_2xx_without_json_raises :
  let sent := _make_request Fixture.env_no_content "POST" "conversations/messages"
                (Some (sms_payload "123" "hello")) Fixture.state0 in
  fst (refresh_access_token Fixture.env_no_content
         (expired Fixture.state0 "POST" "conversations/messages"
            (Some (sms_payload "123" "hello")))) = Ok true
  /\ access_token (self (snd sent)) = Fixture.A2
  /\ length (api_log (world (snd sent))) = 2%nat
  /\ length (post_log (world (snd sent))) = 1%nat
  /\ httpx_env Fixture.env_no_content
       (api_log (world Fixture.state0)
          ++ [api_request Fixture.api0 "POST" "conversations/messages"
                (Some (sms_payload "123" "hello"))])%list
       (api_request (with_tokens Fixture.env_no_content Fixture.A2 Fixture.R2 Fixture.api0)
          "POST" "conversations/messages" (Some (sms_payload "123" "hello")))
     = Responded (mkResponse 204 None)
  /\ is_success 204 = true
  /\ fst sent = Raise (JSONDecodeError "Expecting value")
  /\ fst (send_sms Fixture.env_no_content "123" "hello" Fixture.state0) = Ok false.
Proof. repeat split. Qed.

Lemma always_401_status env history rq r :
  always_401 env -> httpx_env env history rq = Responded r -> status_code r = 401.
Proof.
  intros H E. destruct (H history rq) as (r' & Hr' & Hst). rewrite E in Hr'.
  inversion Hr'; subst r'. exact Hst.
Qed.

Lemma always_401_responds env history rq msg :
  always_401 env -> httpx_env env history rq = TransportFailed msg -> False.
Proof.
  intros H E. destruct (H history rq) as (r' & Hr' & _). rewrite E in Hr'. discriminate.
Qed.

(** The counting part of the statement on the calls of one request,
    once the lists of requests and posts are known. *)
Ltac count_calls :=
  split; [reflexivity|]; split; [reflexivity|]; cbn;
  split; [lia|]; split; [lia|]; split; [intros; (reflexivity || lia)|].

(** C2: one call of [_make_request] sends one or two requests to the
    business API and calls the token endpoint at most once, a second request
    only after that call.  When the business API answers 401 to everything,
    the call raises the 401 to its caller after exactly one call of the token
    endpoint: after two requests when the refresh succeeded, after one when
    it did not. *)
Theorem make_request_no_retry_storm env method endpoint kwargs s :
  let result := _make_request env method endpoint kwargs s in
  exists reqs posts,
    api_log (world (snd result)) = (api_log (world s) ++ reqs)%list
    /\ post_log (world (snd result)) = (post_log (world s) ++ posts)%list
    /\ (1 <= length reqs <= 2)%nat
    /\ (length posts <= 1)%nat
    /\ (length reqs = 2%nat -> length posts = 1%nat)
    /\ (always_401 env ->
        fst result = Raise (HTTPStatusError 401)
        /\ posts = [refresh_post (self s)]
        /\ (refresh_succeeds env s -> length reqs = 2%nat)
        /\ (~ refresh_succeeds env s -> length reqs = 1%nat)).
Proof.
  intros result. subst result.
  destruct (httpx_env env (api_log (world s)) (api_request (self s) method endpoint kwargs))
    as [r1|msg] eqn:H1.
  - destruct (Z.eq_dec (status_code r1) 401) as [Hst|Hst].
    + rewrite (make_request_401 env method endpoint kwargs s r1 H1 Hst).
      destruct (refresh_cases env (expired s method endpoint kwargs))
        as [(a & r & now & Hg & Hdb & ->)|(Hno & w' & -> & Hapi & Hpost)].
      * assert (Hyes : refresh_succeeds env s) by (exists a, r, now; split; assumption).
        unfold retry. cbn.
        match goal with |- context [httpx_env env ?h ?q] =>
          destruct (httpx_env env h q) as [r2|msg] eqn:H2 end.
        -- rewrite conclude_api_log, conclude_post_log, conclude_fst. cbn.
           eexists [_; _], [_]. rewrite <- app_assoc. count_calls.
           intros H401. split; [|repeat split; tauto].
           apply settle_401. eapply always_401_status; eassumption.
        -- cbn. eexists [_; _], [_]. rewrite <- app_assoc. count_calls.
           intros H401. exfalso. eapply always_401_responds; eassumption.
      * rewrite conclude_api_log, conclude_post_log, conclude_fst. cbn.
        rewrite Hapi, Hpost. cbn.
        eexists [_], [_]. count_calls.
        intros H401. split; [now apply settle_401|]. split; [reflexivity|].
        split; [|reflexivity]. intros Hyes. exfalso. apply Hno. exact Hyes.
    + rewrite (make_request_plain env method endpoint kwargs s r1 H1 Hst).
      rewrite conclude_api_log, conclude_post_log, conclude_fst. cbn.
      eexists [_], []. rewrite app_nil_r. count_calls.
      intros H401. exfalso. apply Hst. eapply always_401_status; eassumption.
  - rewrite (make_request_transport env method endpoint kwargs s msg H1). cbn.
    eexists [_], []. rewrite app_nil_r. count_calls.
    intros H401. exfalso. eapply always_401_responds; eassumption.
Qed.

Lemma make_request_no_retry_storm_witness :
  always_401 Fixture.env_storm
  /\ refresh_succeeds Fixture.env_storm Fixture.state0
  /\ fst (_make_request Fixture.env_storm "GET" "contacts/123" None Fixture.state0)
     = Raise (HTTPStatusError 401)
  /\ length (api_log (world (snd (_make_request Fixture.env_storm "GET" "contacts/123" None
                                    Fixture.state0)))) = 2%nat
  /\ length (post_log (world (snd (_make_request Fixture.env_storm "GET" "contacts/123" None
                                     Fixture.state0)))) = 1%nat.
Proof.
  assert (H401 : always_401 Fixture.env_storm).
  { intros history rq. eexists. split; reflexivity. }
  assert (Hyes : refresh_succeeds Fixture.env_storm Fixture.state0).
  { exists Fixture.A2, Fixture.R2, 20. split; reflexivity. }
  destruct (make_request_no_retry_storm Fixture.env_storm "GET" "contacts/123" None
              Fixture.state0)
    as (reqs & posts & Hapi & Hpost & _ & _ & _ & Hstorm).
  destruct (Hstorm H401) as (Hres & Hposts & Htwice & _).
  split; [exact H401|]. split; [exact Hyes|]. split; [exact Hres|].
  rewrite Hapi, Hpost, Hposts. rewrite !length_app, (Htwice Hyes). split; reflexivity.
Defined.

(** ** The best-effort calls *)

Lemma get_contact_pipeline_run env contact_id s :
  get_contact_pipeline env contact_id s =
  match _make_request env "GET" ("contacts/" ++ contact_id) None s with
  | (Ok (PyDict d), s1) =>
      let name :=
        match dict_lookup "pipeline" d with
        | Some (PyDict p) =>
            match dict_lookup "name" p with Some v => v | None => PyStr "" end
        | Some other => PyStr (py_str env other)
        | None => PyStr ""
        end in
      (Ok name,
       mkState (self s1)
         (add_log (INFO, "Contact " ++ contact_id ++ " is in pipeline: " ++ py_str env name)
                  (world s1)))
  | (Ok _, s1) =>
      (Ok (PyStr ""),
       mkState (self s1)
         (add_log (ERROR, "Error getting contact pipeline: "
                            ++ exn_str (AttributeError "object has no attribute 'get'"))
                  (world s1)))
  | (Raise e, s1) =>
      (Ok (PyStr ""),
       mkState (self s1)
         (add_log (ERROR, "Error getting contact pipeline: " ++ exn_str e) (world s1)))
  end.
Proof.
  unfold get_contact_pipeline. mrun.
  destruct (_make_request env "GET" ("contacts/" ++ contact_id) None s) as [[data|e] s1];
    [|reflexivity].
  destruct data as [| | | |l|d]; try reflexivity. cbn.
  destruct (dict_lookup "pipeline" d) as [pipeline|]; cbn; [|reflexivity].
  destruct pipeline as [| | | |l|p]; try reflexivity. cbn.
  destruct (dict_lookup "name" p); reflexivity.
Qed.

Lemma send_sms_run env contact_id message s :
  send_sms env contact_id message s =
  match _make_request env "POST" "conversations/messages"
          (Some (sms_payload contact_id message)) s with
  | (Ok _, s1) =>
      (Ok true,
       mkState (self s1)
               (add_log (INFO, "SMS sent successfully to " ++ contact_id) (world s1)))
  | (Raise e, s1) =>
      (Ok false,
       mkState (self s1) (add_log (ERROR, "Error sending SMS: " ++ exn_str e) (world s1)))
  end.
Proof.
  unfold send_sms. mrun.
  destruct (_make_request env "POST" "conversations/messages" _ s) as [[data|e] s1];
    reflexivity.
Qed.

(** C8: [get_contact_pipeline] and [send_sms] never raise.  Whatever
    exception [_make_request] raises (transport error, status outside 2xx,
    a 401 left after a failed refresh, a body that is not JSON), and also when
    the JSON is not an object, [get_contact_pipeline] logs it and returns the
    empty string; [send_sms] logs it and returns [False], and returns [True]
    only when [_make_request] returned. *)
Theorem best_effort_calls_swallow_failures env contact_id message s :
  let lookup := _make_request env "GET" ("contacts/" ++ contact_id) None s in
  let sending := _make_request env "POST" "conversations/messages"
                   (Some (sms_payload contact_id message)) s in
  is_raise (fst (get_contact_pipeline env contact_id s)) = false
  /\ (forall e, fst lookup = Raise e ->
        fst (get_contact_pipeline env contact_id s) = Ok (PyStr "")
        /\ In (ERROR, "Error getting contact pipeline: " ++ exn_str e)
              (logs (world (snd (get_contact_pipeline env contact_id s)))))
  /\ (forall data, fst lookup = Ok data -> isinstance_dict data = false ->
        fst (get_contact_pipeline env contact_id s) = Ok (PyStr ""))
  /\ fst (send_sms env contact_id message s) = Ok (negb (is_raise (fst sending)))
  /\ (forall e, fst sending = Raise e ->
        fst (send_sms env contact_id message s) = Ok false
        /\ In (ERROR, "Error sending SMS: " ++ exn_str e)
              (logs (world (snd (send_sms env contact_id message s))))).
Proof.
  intros lookup sending. subst lookup sending.
  rewrite get_contact_pipeline_run, send_sms_run.
  destruct (_make_request env "GET" ("contacts/" ++ contact_id) None s) as [[data|e] s1];
    destruct (_make_request env "POST" "conversations/messages" _ s) as [[sent|e'] s2];
    cbn.
  all: repeat split; try discriminate.
  all: try (destruct data; reflexivity).
  all: try (intros d Hd Hnd; inversion Hd; subst d; destruct data; try discriminate; reflexivity).
  all: match goal with
       | H : Raise _ = Raise _ |- _ =>
           inversion H; subst; apply in_or_app; right; left; reflexivity
       end.
Qed.

Lemma best_effort_calls_swallow_failures_witness :
  fst (get_contact_pipeline Fixture.env_offline "123" Fixture.state0) = Ok (PyStr "")
  /\ fst (send_sms Fixture.env_offline "123" "hello" Fixture.state0) = Ok false.
Proof.
  destruct (best_effort_calls_swallow_failures Fixture.env_offline "123" "hello"
              Fixture.state0) as (_ & Hget & _ & _ & Hsend).
  split.
  - exact (proj1 (Hget (TransportError "connection reset") eq_refl)).
  - exact (proj1 (Hsend (TransportError "connection reset") eq_refl)).
Defined.

(** ** [GHLClient.exchange_code_for_token] *)

(** C9, as the code has it: [exchange_code_for_token] raises the transport
    error of [requests.post], raises [HTTPError] for a 4xx or 5xx status,
    raises the JSON decoding error of a body that is not JSON, and otherwise
    returns the decoded body as it is, whatever its fields; it sends no
    statement to the database and leaves the table alone. *)
Theorem exchange_code_outcome env c code client_id client_secret redirect_uri w :
  let p := GHLClient.exchange_post c code client_id client_secret redirect_uri in
  let result :=
    GHLClient.exchange_code_for_token env c code client_id client_secret redirect_uri w in
  fst result =
  match requests_env env (post_log w) p with
  | TransportFailed msg => Raise (ConnectionError msg)
  | Responded resp =>
      if is_http_error (status_code resp) then Raise (HTTPError (status_code resp))
      else match json_body resp with
           | Some v => Ok v
           | None => Raise (RequestsJSONDecodeError "Expecting value")
           end
  end
  /\ tokens_table (snd result) = tokens_table w
  /\ db_log (snd result) = db_log w
  /\ post_log (snd result) = (post_log w ++ [p])%list.
Proof.
  intros p result. subst result.
  unfold GHLClient.exchange_code_for_token, requests_post. mrun. fold p.
  destruct (requests_env env (post_log w) p) as [resp|msg]; cbn; [|repeat split].
  unfold requests_raise_for_status.
  destruct (is_http_error (status_code resp)); cbn; [repeat split|].
  unfold requests_json. destruct (json_body resp); cbn; repeat split.
Qed.

(** C9 as the specification words it fails: a 200 whose JSON body has
    neither token field is returned to the caller, no exception is raised;
    and the exception for a 400 is [requests]' [HTTPError], not an
    [ExchangeError]. *)
Lemma exchange_code_returns_any_json :
  fst (GHLClient.exchange_code_for_token Fixture.env_empty_object GHLClient.init
         "code" "cid" "secret" "https://bot.example/oauth/callback" Fixture.empty_world)
  = Ok (PyDict [])
  /\ token_fields (PyDict []) = None
  /\ fst (GHLClient.exchange_code_for_token Fixture.env_invalid_grant GHLClient.init
            "code" "cid" "secret" "https://bot.example/oauth/callback" Fixture.empty_world)
     = Raise (HTTPError 400)
  /\ ~ raises_class "ExchangeError"
         (fst (GHLClient.exchange_code_for_token Fixture.env_invalid_grant GHLClient.init
                 "code" "cid" "secret" "https://bot.example/oauth/callback"
                 Fixture.empty_world)).
Proof.
  repeat split. intros (e & H & Hc). vm_compute in H. inversion H; subst e. discriminate.
Qed.

(** ** [GHLClient.get_authorization_url] *)

Lemma authorization_params_plain client_id redirect_uri state :
  Url.plain client_id = true ->
  Url.plain redirect_uri = true ->
  (forall st, state = Some st -> GHLClient.truthy st = true -> Url.plain st = true) ->
  forallb Url.plain_param (GHLClient.authorization_params client_id redirect_uri state) = true.
Proof.
  intros Hc Hr Hs.
  assert (Hbase : forallb Url.plain_param
                    [ ("client_id", client_id); ("redirect_uri", redirect_uri);
                      ("response_type", "code"); ("scope", GHLClient.scope) ] = true).
  { cbn [forallb]. unfold Url.plain_param. cbn [fst snd]. rewrite Hc, Hr. reflexivity. }
  unfold GHLClient.authorization_params.
  destruct state as [st|]; [|exact Hbase].
  destruct (GHLClient.truthy st) eqn:Ht; [|exact Hbase].
  change (GHLClient.dict_set "state" st _)
    with ([ ("client_id", client_id); ("redirect_uri", redirect_uri);
            ("response_type", "code"); ("scope", GHLClient.scope) ] ++ [("state", st)])%list.
  rewrite forallb_app, Hbase. cbn [forallb]. unfold Url.plain_param. cbn [fst snd].
  rewrite (Hs st eq_refl Ht). reflexivity.
Qed.

(** The URL, written out: the values are not encoded. *)
Lemma authorization_url_verbatim client_id redirect_uri state :
  GHLClient.get_authorization_url GHLClient.init client_id redirect_uri state
  = "https://marketplace.gohighlevel.com/oauth/authorize?client_id=" ++ client_id
    ++ "&redirect_uri=" ++ redirect_uri
    ++ "&response_type=code&scope=" ++ GHLClient.scope
    ++ match state with
       | Some st => if GHLClient.truthy st then "&state=" ++ st else ""
       | None => ""
       end.
Proof.
  unfold GHLClient.get_authorization_url, GHLClient.authorization_params.
  assert (Hbase :
    String.concat "&"
      (map (fun kv => fst kv ++ "=" ++ snd kv)
         [ ("client_id", client_id); ("redirect_uri", redirect_uri);
           ("response_type", "code"); ("scope", GHLClient.scope) ])
    = "client_id=" ++ client_id ++ "&redirect_uri=" ++ redirect_uri
      ++ "&response_type=code&scope=" ++ GHLClient.scope).
  { cbn [map String.concat fst snd]. now rewrite !UrlFacts.append_assoc. }
  destruct state as [st|]; [destruct (GHLClient.truthy st)|].
  - change (GHLClient.dict_set "state" st _)
      with [ ("client_id", client_id); ("redirect_uri", redirect_uri);
             ("response_type", "code"); ("scope", GHLClient.scope); ("state", st) ].
    cbn [map String.concat fst snd]. now rewrite !UrlFacts.append_assoc.
  - rewrite Hbase. reflexivity.
  - rewrite Hbase. reflexivity.
Qed.

(** C7, as the code has it: [get_authorization_url] writes the values into
    the query as they are, with a fixed scope and with [state] only when it
    is not empty.  For values that need no encoding (not empty, without [&],
    [#], [+], [%], tab and line ends) reading the URL back gives exactly the
    values supplied. *)
Theorem authorization_url_round_trip client_id redirect_uri state :
  Url.plain client_id = true ->
  Url.plain redirect_uri = true ->
  (forall st, state = Some st -> GHLClient.truthy st = true -> Url.plain st = true) ->
  let url := GHLClient.get_authorization_url GHLClient.init client_id redirect_uri state in
  url = "https://marketplace.gohighlevel.com/oauth/authorize?client_id=" ++ client_id
        ++ "&redirect_uri=" ++ redirect_uri
        ++ "&response_type=code&scope=" ++ GHLClient.scope
        ++ match state with
           | Some st => if GHLClient.truthy st then "&state=" ++ st else ""
           | None => ""
           end
  /\ Url.parse_qsl (Url.query url)
     = GHLClient.authorization_params client_id redirect_uri state
  /\ Url.values "client_id" url = [client_id]
  /\ Url.values "redirect_uri" url = [redirect_uri]
  /\ Url.values "scope" url = [GHLClient.scope]
  /\ Url.values "state" url
     = match state with
       | Some st => if GHLClient.truthy st then [st] else []
       | None => []
       end.
Proof.
  intros Hc Hr Hs url.
  assert (Hparse : Url.parse_qsl (Url.query url)
                   = GHLClient.authorization_params client_id redirect_uri state).
  { subst url. unfold GHLClient.get_authorization_url.
    change (GHLClient.oauth_url GHLClient.init ++ "/authorize?" ++ ?q)
      with ("https://marketplace.gohighlevel.com/oauth/authorize" ++ "?" ++ q).
    apply UrlFacts.parse_rendered_url; try reflexivity.
    - unfold GHLClient.authorization_params.
      destruct state as [st|]; [destruct (GHLClient.truthy st)|]; discriminate.
    - now apply authorization_params_plain. }
  split; [apply authorization_url_verbatim|].
  split; [exact Hparse|].
  unfold Url.values. rewrite Hparse. unfold GHLClient.authorization_params.
  destruct state as [st|]; [destruct (GHLClient.truthy st)|]; repeat split.
Qed.

Lemma authorization_url_round_trip_witness :
  Url.values "client_id"
    (GHLClient.get_authorization_url GHLClient.init "cid"
       "https://bot.example/oauth/callback?from=ghl" (Some "s 1"))
  = ["cid"]
  /\ Url.values "redirect_uri"
       (GHLClient.get_authorization_url GHLClient.init "cid"
          "https://bot.example/oauth/callback?from=ghl" (Some "s 1"))
     = ["https://bot.example/oauth/callback?from=ghl"]
  /\ Url.values "state"
       (GHLClient.get_authorization_url GHLClient.init "cid"
          "https://bot.example/oauth/callback?from=ghl" (Some "s 1"))
     = ["s 1"].
Proof.
  destruct (authorization_url_round_trip "cid" "https://bot.example/oauth/callback?from=ghl"
              (Some "s 1") eq_refl eq_refl)
    as (_ & _ & Hc & Hr & _ & Hs).
  - intros st Hst _. inversion Hst; subst st. reflexivity.
  - split; [exact Hc|]. split; [exact Hr|exact Hs].
Defined.

(** C7 as the specification words it fails: the values are not
    percent-encoded.  A client id with an [&] is cut at it when the URL is
    read back; and two different pairs of client id and redirect URI give
    the same URL, so that no way of reading it recovers both. *)
Lemma authorization_url_not_encoded :
  GHLClient.get_authorization_url GHLClient.init "a&b=c" "https://bot.example/cb" None
  = "https://marketplace.gohighlevel.com/oauth/authorize?client_id=a&b=c&redirect_uri=https://bot.example/cb&response_type=code&scope=" ++ GHLClient.scope
  /\ Url.values "client_id"
       (GHLClient.get_authorization_url GHLClient.init "a&b=c" "https://bot.example/cb" None)
     = ["a"]
  /\ GHLClient.get_authorization_url GHLClient.init "a&redirect_uri=b" "c" None
     = GHLClient.get_authorization_url GHLClient.init "a" "b&redirect_uri=c" None.
Proof. repeat split. Qed.
